(** * Photo quality scoring engine

    A shallow embedding of [src/components/analysis/photo-analyzer.tsx]
    (the [PhotoAnalyzer] component) and the properties of its scoring
    pipeline.

    Conventions of the embedding.
    - A JavaScript [number] that holds a pixel value, a counter or an index is
      an integer and is modelled in [Z]; all of them stay far below 2^53, so
      the double arithmetic on them is exact.
    - Every other [number] is a [JS.num]: an IEEE-754 binary64 value, as the
      [SpecFloat] of the Standard Library specifies it (precision 53, the
      rounding to the nearest value with ties to even, signed zeros,
      infinities and one NaN).  [+], [-], [*] and [/] are its operations, so
      every intermediate result is rounded as the program rounds it.
    - [Math.sqrt] and [Math.exp] are approximated by the implementation on
      the numbers that are not special; they are taken from an interface,
      [MathLib], of which the pipeline is a client.  [Math.pow(x, 2)] is the
      product [x * x]. *)

From Stdlib Require Import String.
From Stdlib Require Import ZArith QArith List Bool Lia.
From Stdlib Require Import Floats.SpecFloat.
From Stdlib Require Import Permutation.
Import ListNotations.
Open Scope Z_scope.

(** ** JavaScript numbers *)

Module JS.

Definition prec : Z := 53.
Definition emax : Z := 1024.

Definition num : Type := spec_float.

Definition NaN : num := S754_nan.
Definition PInf : num := S754_infinity false.
Definition NInf : num := S754_infinity true.

(** The number that holds an integer. *)
Definition ofZ (z : Z) : num := binary_normalize prec emax z 0 false.

Definition add (x y : num) : num := SFadd prec emax x y.
Definition sub (x y : num) : num := SFsub prec emax x y.
Definition mul (x y : num) : num := SFmul prec emax x y.
Definition div (x y : num) : num := SFdiv prec emax x y.
Definition neg (x : num) : num := SFopp x.

(** The number that a decimal literal denotes: the number nearest to the
    fraction, which is the quotient of its two terms. *)
Definition Fin (q : Q) : num := div (ofZ (Qnum q)) (ofZ (Z.pos (Qden q))).

Definition is_nan (x : num) : bool :=
  match x with S754_nan => true | _ => false end.

(** The order of the numbers; [None] when an operand is NaN. *)
Definition cmp (x y : num) : option comparison := SFcompare x y.

Definition lt (x y : num) : bool :=
  match cmp x y with Some Lt => true | _ => false end.
Definition gt (x y : num) : bool :=
  match cmp x y with Some Gt => true | _ => false end.
Definition le (x y : num) : bool :=
  match cmp x y with Some Lt | Some Eq => true | _ => false end.
Definition ge (x y : num) : bool :=
  match cmp x y with Some Gt | Some Eq => true | _ => false end.
(** [x === y] on numbers. *)
Definition eqb (x y : num) : bool :=
  match cmp x y with Some Eq => true | _ => false end.

Definition is_neg_zero (x : num) : bool :=
  match x with S754_zero true => true | _ => false end.

(** [Math.min] and [Math.max]: NaN when an argument is NaN, and -0 is below
    +0. *)
Definition min (x y : num) : num :=
  match cmp x y with
  | None => NaN
  | Some Lt => x
  | Some Gt => y
  | Some Eq => if is_neg_zero y then y else x
  end.

Definition max (x y : num) : num :=
  match cmp x y with
  | None => NaN
  | Some Lt => y
  | Some Gt => x
  | Some Eq => if is_neg_zero x then y else x
  end.

(** [Math.abs]. *)
Definition abs (x : num) : num := SFabs x.

(** [Math.round]: the nearest integer, the upper one of two; a number
    without a fraction is returned as it is, and a zero result keeps the sign
    of the argument. *)
Definition round (x : num) : num :=
  match x with
  | S754_finite s m e =>
      if 0 <=? e then x
      else
        binary_normalize prec emax
          ((2 * cond_Zopp s (Z.pos m) + 2 ^ (- e)) / 2 ^ (- e + 1)) 0 s
  | _ => x
  end.

(** The integer part of a number, 0 for the numbers that have none: the
    conversion of the typed arrays and of the array indices. *)
Definition toZ (x : num) : Z :=
  match x with
  | S754_finite s m e =>
      cond_Zopp s (if 0 <=? e then Z.pos m * 2 ^ e else Z.quot (Z.pos m) (2 ^ (- e)))
  | _ => 0
  end.

(** The remainder [x % y]: exact, with the sign of the dividend and the
    quotient truncated. *)
Definition rem (x y : num) : num :=
  match x, y with
  | S754_nan, _ | _, S754_nan => NaN
  | S754_infinity _, _ => NaN
  | _, S754_zero _ => NaN
  | S754_zero _, _ => x
  | _, S754_infinity _ => x
  | S754_finite sx mx ex, S754_finite _ my ey =>
      let e := Z.min ex ey in
      let X := Z.pos mx * 2 ^ (ex - e) in
      let Y := Z.pos my * 2 ^ (ey - e) in
      binary_normalize prec emax (cond_Zopp sx (Z.rem X Y)) e sx
  end.

(** [Math.pow(x, 2)]. *)
Definition sq (x : num) : num := mul x x.

(** A score is in the closed interval [[lo, hi]]: in particular it is a
    number. *)
Definition within (lo hi x : num) : bool := le lo x && le x hi.

End JS.

(** The two functions of [Math] that the implementation approximates. *)
Class MathLib : Type := {
  Msqrt : JS.num -> JS.num;
  Mexp : JS.num -> JS.num
}.

(** [Math.sqrt]: NaN, the zeros and [+Infinity] are returned as they are, a
    number below 0 gives NaN. *)
Definition sqrt `{MathLib} (x : JS.num) : JS.num :=
  match x with
  | S754_nan => JS.NaN
  | S754_zero _ => x
  | S754_infinity s => if s then JS.NaN else x
  | S754_finite s _ _ => if s then JS.NaN else Msqrt x
  end.

(** [Math.exp]: 1 at the zeros, [+Infinity] and +0 at the infinities. *)
Definition exp `{MathLib} (x : JS.num) : JS.num :=
  match x with
  | S754_nan => JS.NaN
  | S754_zero _ => JS.ofZ 1
  | S754_infinity s => if s then JS.ofZ 0 else x
  | S754_finite _ _ _ => Mexp x
  end.

(** ** Loops and arrays *)

(** The values of [i] in [for (let i = lo; i < hi; i += step)]. *)
Fixpoint upto (fuel : nat) (i hi step : Z) : list Z :=
  match fuel with
  | O => []
  | S fuel' => if i <? hi then i :: upto fuel' (i + step) hi step else []
  end.

Definition forLoop (lo hi step : Z) : list Z :=
  upto (Z.to_nat (hi - lo)) lo hi step.

(** [a[i]] on an array of integers, for an index inside the array. *)
Definition get (a : list Z) (i : Z) : Z := nth (Z.to_nat i) a 0.

(** [a[i] = v] on a typed array: a store outside the array is ignored. *)
Fixpoint set_nth (n : nat) (v : Z) (a : list Z) : list Z :=
  match a, n with
  | [], _ => []
  | _ :: a', O => v :: a'
  | x :: a', S n' => x :: set_nth n' v a'
  end.

Definition set (a : list Z) (i v : Z) : list Z :=
  if i <? 0 then a else set_nth (Z.to_nat i) v a.

(** Conversions of the stores into a [Uint8Array] and an [Int16Array]. *)
Definition toUint8 (z : Z) : Z := z mod 256.
Definition toInt16 (z : Z) : Z := (z + 32768) mod 65536 - 32768.

(** ** Images *)

(** [ImageData]: [data] holds R, G, B, A for each pixel, row by row. *)
Record ImageData : Type := mkImageData {
  width : Z;
  height : Z;
  data : list Z
}.

Definition wf_image (img : ImageData) : Prop :=
  0 < width img /\ 0 < height img /\
  Z.of_nat (length (data img)) = 4 * width img * height img /\
  Forall (fun v => 0 <= v <= 255) (data img).

(** The weights of the luma. *)
Definition c0_299 : JS.num := JS.Fin (299 # 1000).
Definition c0_587 : JS.num := JS.Fin (587 # 1000).
Definition c0_114 : JS.num := JS.Fin (114 # 1000).

(** [Math.round(0.299 * r + 0.587 * g + 0.114 * b)]. *)
Definition luma (r g b : Z) : Z :=
  JS.toZ
    (JS.round
       (JS.add
          (JS.add (JS.mul c0_299 (JS.ofZ r)) (JS.mul c0_587 (JS.ofZ g)))
          (JS.mul c0_114 (JS.ofZ b)))).

(** The grayscale loop of [detectBlur] and [findEdges]: one luma per group
    of four bytes, stored in a [Uint8Array]. *)
Fixpoint grayscale (d : list Z) : list Z :=
  match d with
  | r :: g :: b :: _ :: rest => toUint8 (luma r g b) :: grayscale rest
  | _ => []
  end.

(** ** Technical quality *)

Definition laplacianAt (gray : list Z) (w idx : Z) : Z :=
  -1 * get gray (idx - w - 1) + -1 * get gray (idx - w) + -1 * get gray (idx - w + 1) +
  -1 * get gray (idx - 1) + 8 * get gray idx + -1 * get gray (idx + 1) +
  -1 * get gray (idx + w - 1) + -1 * get gray (idx + w) + -1 * get gray (idx + w + 1).

(** The Laplacian filter: an [Int16Array] of zeros, written at the pixels
    that are not on the border. *)
Definition laplacianFilter (gray : list Z) (w h : Z) : list Z :=
  fold_left
    (fun lap y =>
       fold_left
         (fun lap x =>
            let idx := y * w + x in
            set lap idx (toInt16 (laplacianAt gray w idx)))
         (forLoop 1 (w - 1) 1) lap)
    (forLoop 1 (h - 1) 1)
    (repeat 0 (length gray)).

Definition isBorder (w h i : Z) : bool :=
  (Z.rem i w =? 0) || (Z.rem i w =? w - 1) || (i <? w) || (i >=? (h - 1) * w).

Record Moments : Type := mkMoments { m_sum : Z; m_sumSquared : Z; m_count : Z }.

(** The variance loop of [detectBlur]: [sum], [sumSquared] and [count] over
    the entries that are not skipped. *)
Definition laplacianMoments (lap : list Z) (w h : Z) : Moments :=
  fold_left
    (fun m i =>
       if isBorder w h i then m
       else
         let v := get lap i in
         mkMoments (m_sum m + v) (m_sumSquared m + v * v) (m_count m + 1))
    (forLoop 0 (Z.of_nat (length lap)) 1)
    (mkMoments 0 0 0).

Definition detectBlur (img : ImageData) : JS.num :=
  let gray := grayscale (data img) in
  let w := width img in
  let h := height img in
  let lap := laplacianFilter gray w h in
  let m := laplacianMoments lap w h in
  let mean := JS.div (JS.ofZ (m_sum m)) (JS.ofZ (m_count m)) in
  let variance :=
    JS.sub (JS.div (JS.ofZ (m_sumSquared m)) (JS.ofZ (m_count m))) (JS.mul mean mean) in
  JS.min (JS.ofZ 1) (JS.max (JS.ofZ 0) (JS.div variance (JS.ofZ 1000))).

(** [reduce((sum, val) => sum + val, 0)] on an array of integers. *)
Definition sumZ (l : list Z) : Z := fold_left Z.add l 0.

(** The decimal constants of the program. *)
Definition c0_05 : JS.num := JS.Fin (1 # 20).
Definition c0_1 : JS.num := JS.Fin (1 # 10).
Definition c0_2 : JS.num := JS.Fin (1 # 5).
Definition c0_3 : JS.num := JS.Fin (3 # 10).
Definition c0_4 : JS.num := JS.Fin (2 # 5).
Definition c0_5 : JS.num := JS.Fin (1 # 2).
Definition c0_6 : JS.num := JS.Fin (3 # 5).
Definition c0_7 : JS.num := JS.Fin (7 # 10).

Record BlockVariance : Type := mkBlockVariance {
  meanVariance : JS.num;
  noiseLevel : JS.num
}.

(** The grays of the block at ([x], [y]), row by row. *)
Definition blockPixels (img : ImageData) (x y blockSize : Z) : list Z :=
  flat_map
    (fun j =>
       map
         (fun i =>
            let idx := ((y + j) * width img + (x + i)) * 4 in
            luma (get (data img) idx) (get (data img) (idx + 1)) (get (data img) (idx + 2)))
         (forLoop 0 blockSize 1))
    (forLoop 0 blockSize 1).

(** The two difference loops of [calculateBlockVariance]: [diffSum] and
    [diffCount] over the horizontal, then the vertical neighbours. *)
Definition blockDiffs (pixelValues : list Z) (blockSize : Z) : Z * Z :=
  let horizontal :=
    fold_left
      (fun acc j =>
         fold_left
           (fun '(diffSum, diffCount) i =>
              let idx1 := j * blockSize + i in
              let idx2 := j * blockSize + i + 1 in
              (diffSum + Z.abs (get pixelValues idx1 - get pixelValues idx2), diffCount + 1))
           (forLoop 0 (blockSize - 1) 1) acc)
      (forLoop 0 blockSize 1) (0, 0) in
  fold_left
    (fun acc i =>
       fold_left
         (fun '(diffSum, diffCount) j =>
            let idx1 := j * blockSize + i in
            let idx2 := (j + 1) * blockSize + i in
            (diffSum + Z.abs (get pixelValues idx1 - get pixelValues idx2), diffCount + 1))
         (forLoop 0 (blockSize - 1) 1) acc)
    (forLoop 0 blockSize 1) horizontal.

Definition calculateBlockVariance (img : ImageData) (x y blockSize : Z) : BlockVariance :=
  let pixelValues := blockPixels img x y blockSize in
  let len := JS.ofZ (Z.of_nat (length pixelValues)) in
  let mean := JS.div (JS.ofZ (sumZ pixelValues)) len in
  let colorVariance :=
    JS.div
      (fold_left (fun sum val => JS.add sum (JS.sq (JS.sub (JS.ofZ val) mean)))
         pixelValues (JS.ofZ 0))
      len in
  let '(diffSum, diffCount) := blockDiffs pixelValues blockSize in
  mkBlockVariance colorVariance (JS.div (JS.ofZ diffSum) (JS.ofZ diffCount)).

(** The corners of the blocks that the loops of [detectNoise] visit. *)
Definition noiseBlocks (w h blockSize : Z) : list (Z * Z) :=
  flat_map
    (fun y => map (fun x => (x, y)) (forLoop 0 (w - blockSize) blockSize))
    (forLoop 0 (h - blockSize) blockSize).

(** The local [blocks] of [detectNoise], which the function computes and
    never reads. *)
Definition blocks (img : ImageData) (blockSize : Z) : Z :=
  (width img / blockSize) * (height img / blockSize).

(** [totalNoise] and [uniformBlocks] after the loops, for the blocks at
    [corners]. *)
Definition noiseTotals (img : ImageData) (blockSize : Z) (corners : list (Z * Z)) : JS.num * Z :=
  fold_left
    (fun '(totalNoise, uniformBlocks) '(x, y) =>
       let blockVariance := calculateBlockVariance img x y blockSize in
       if JS.lt (meanVariance blockVariance) (JS.ofZ 100)
       then (JS.add totalNoise (noiseLevel blockVariance), uniformBlocks + 1)
       else (totalNoise, uniformBlocks))
    corners
    (JS.ofZ 0, 0).

(** The score that [detectNoise] derives from the totals. *)
Definition noiseScoreOver (img : ImageData) (blockSize : Z) (corners : list (Z * Z)) : JS.num :=
  let '(totalNoise, uniformBlocks) := noiseTotals img blockSize corners in
  if uniformBlocks =? 0 then c0_5
  else
    let averageNoise := JS.div totalNoise (JS.ofZ uniformBlocks) in
    JS.min (JS.ofZ 1)
      (JS.max (JS.ofZ 0) (JS.sub (JS.ofZ 1) (JS.div averageNoise (JS.ofZ 20)))).

Definition detectNoise (img : ImageData) : JS.num :=
  let blockSize := 8 in
  noiseScoreOver img blockSize (noiseBlocks (width img) (height img) blockSize).

(** The noise analysis as the specification words it: every full block of
    the partition of the image is a candidate. *)
Definition spec_partitionBlocks (w h blockSize : Z) : list (Z * Z) :=
  flat_map
    (fun y => map (fun x => (x, y)) (forLoop 0 (w - blockSize + 1) blockSize))
    (forLoop 0 (h - blockSize + 1) blockSize).

Definition spec_detectNoise (img : ImageData) : JS.num :=
  noiseScoreOver img 8 (spec_partitionBlocks (width img) (height img) 8).

(** The histogram loop of [analyzeExposure] and [analyzeContrast]. *)
Fixpoint histogramLoop (d : list Z) (histogram : list Z) : list Z :=
  match d with
  | r :: g :: b :: _ :: rest =>
      let gray := luma r g b in
      histogramLoop rest (set histogram gray (get histogram gray + 1))
  | _ => histogram
  end.

Definition histogramOf (img : ImageData) : list Z :=
  histogramLoop (data img) (repeat 0 256%nat).

(** [a[i]] on an array of numbers: [undefined] outside, which is NaN in
    arithmetic. *)
Definition getNum (a : list JS.num) (i : Z) : JS.num :=
  if i <? 0 then JS.NaN else nth (Z.to_nat i) a JS.NaN.

(** [a.slice(lo, hi)] for [0 <= lo <= hi]. *)
Definition slice {A : Type} (a : list A) (lo hi : Z) : list A :=
  firstn (Z.to_nat (hi - lo)) (skipn (Z.to_nat lo) a).

Definition sumNum (l : list JS.num) : JS.num :=
  fold_left JS.add l (JS.ofZ 0).

Definition normalizedHistogram (img : ImageData) : list JS.num :=
  let pixelCount := width img * height img in
  map (fun count => JS.div (JS.ofZ count) (JS.ofZ pixelCount)) (histogramOf img).

(** [mean] and the sum that [stdDev] holds before its square root. *)
Definition exposureMean (nh : list JS.num) : JS.num :=
  fold_left (fun mean i => JS.add mean (JS.mul (JS.ofZ i) (getNum nh i)))
    (forLoop 0 256 1) (JS.ofZ 0).

Definition exposureVariance (nh : list JS.num) (mean : JS.num) : JS.num :=
  fold_left
    (fun stdDev i => JS.add stdDev (JS.mul (JS.sq (JS.sub (JS.ofZ i) mean)) (getNum nh i)))
    (forLoop 0 256 1) (JS.ofZ 0).

(** The locals [meanScore], [stdDevScore] and [extremePixelPenalty] of
    [analyzeExposure]. *)
Record ExposureParts : Type := mkExposureParts {
  e_meanScore : JS.num;
  e_stdDevScore : JS.num;
  e_extremePixelPenalty : JS.num
}.

Section Exposure.
Context `{MathLib}.

Definition exposureParts (img : ImageData) : ExposureParts :=
  let nh := normalizedHistogram img in
  let mean := exposureMean nh in
  let stdDev := sqrt (exposureVariance nh mean) in
  let darkPixelRatio := sumNum (slice nh 0 50) in
  let brightPixelRatio := sumNum (slice nh 200 256) in
  mkExposureParts
    (JS.sub (JS.ofZ 1) (JS.div (JS.abs (JS.sub mean (JS.ofZ 128))) (JS.ofZ 128)))
    (JS.min (JS.div stdDev (JS.ofZ 60)) (JS.ofZ 1))
    (JS.add (JS.max (JS.ofZ 0) (JS.sub darkPixelRatio c0_1))
            (JS.max (JS.ofZ 0) (JS.sub brightPixelRatio c0_1))).

Definition analyzeExposure (img : ImageData) : JS.num :=
  let p := exposureParts img in
  JS.max (JS.ofZ 0)
    (JS.sub (JS.add (JS.mul (e_meanScore p) c0_5) (JS.mul (e_stdDevScore p) c0_5))
            (e_extremePixelPenalty p)).

End Exposure.

Record TechnicalQualityResult : Type := mkTechnicalQualityResult {
  blurScore : JS.num;
  noiseScore : JS.num;
  exposureScore : JS.num;
  t_overallScore : JS.num
}.

Definition analyzeTechnicalQuality `{MathLib} (img : ImageData) : TechnicalQualityResult :=
  let blurScore := detectBlur img in
  let noiseScore := detectNoise img in
  let exposureScore := analyzeExposure img in
  let overallScore :=
    JS.add (JS.add (JS.mul blurScore c0_4) (JS.mul noiseScore c0_3))
           (JS.mul exposureScore c0_3) in
  mkTechnicalQualityResult blurScore noiseScore exposureScore overallScore.

(** ** Aesthetics *)

Record HSV : Type := mkHSV { hsv_h : JS.num; hsv_s : JS.num; hsv_v : JS.num }.

Definition rgbToHsv (r0 g0 b0 : Z) : HSV :=
  let r := JS.div (JS.ofZ r0) (JS.ofZ 255) in
  let g := JS.div (JS.ofZ g0) (JS.ofZ 255) in
  let b := JS.div (JS.ofZ b0) (JS.ofZ 255) in
  let max := JS.max (JS.max r g) b in
  let min := JS.min (JS.min r g) b in
  let diff := JS.sub max min in
  let h :=
    if JS.eqb diff (JS.ofZ 0) then JS.ofZ 0
    else if JS.eqb max r then
      JS.mul (JS.ofZ 60) (JS.rem (JS.div (JS.sub g b) diff) (JS.ofZ 6))
    else if JS.eqb max g then
      JS.mul (JS.ofZ 60) (JS.add (JS.div (JS.sub b r) diff) (JS.ofZ 2))
    else
      JS.mul (JS.ofZ 60) (JS.add (JS.div (JS.sub r g) diff) (JS.ofZ 4)) in
  let h := if JS.lt h (JS.ofZ 0) then JS.add h (JS.ofZ 360) else h in
  let s := if JS.eqb max (JS.ofZ 0) then JS.ofZ 0 else JS.div diff max in
  mkHSV h s max.

Record ColorSample : Type := mkColorSample {
  count : Z;
  c_r : Z;
  c_g : Z;
  c_b : Z;
  hue : JS.num;
  sat : JS.num;
  val : JS.num
}.

(** The key of [colorMap] is the text of the three quantized channels; the
    map keeps its keys in the order of their first insertion. *)
Definition ColorKey : Type := (Z * Z * Z)%type.
Definition ColorMap : Type := list (ColorKey * ColorSample).

Definition key_eqb (k1 k2 : ColorKey) : bool :=
  let '(r1, g1, b1) := k1 in
  let '(r2, g2, b2) := k2 in
  (r1 =? r2) && (g1 =? g2) && (b1 =? b2).

(** One round of the sampling loop on [colorMap]: count the key, or enter
    it with count 1. *)
Fixpoint countColor (key : ColorKey) (fresh : ColorSample) (m : ColorMap) : ColorMap :=
  match m with
  | [] => [(key, fresh)]
  | (k, c) :: m' =>
      if key_eqb k key
      then (k, mkColorSample (count c + 1) (c_r c) (c_g c) (c_b c) (hue c) (sat c) (val c)) :: m'
      else (k, c) :: countColor key fresh m'
  end.

Definition sampleRate (pixelCount : Z) : Z := Z.max 1 (pixelCount / 1000).

(** The pixels that the sampling loop of [extractDominantColors] visits. *)
Definition sampledPixels (pixelCount : Z) : list Z :=
  forLoop 0 pixelCount (sampleRate pixelCount).

(** [Array.prototype.sort(comparefn)].  The sort is stable, and an element
    [x] goes before [y] when [comparefn(x, y) < 0]; a comparator result NaN
    counts as 0.  It is modelled as the stable insertion sort. *)
Definition goesBefore {A : Type} (comparefn : A -> A -> JS.num) (x y : A) : bool :=
  JS.lt (comparefn x y) (JS.ofZ 0).

Fixpoint insertSorted {A : Type} (before : A -> A -> bool) (x : A) (l : list A) : list A :=
  match l with
  | [] => [x]
  | y :: l' => if before x y then x :: l else y :: insertSorted before x l'
  end.

Definition arraySort {A : Type} (comparefn : A -> A -> JS.num) (l : list A) : list A :=
  fold_left (fun sorted x => insertSorted (goesBefore comparefn) x sorted) l [].

Definition extractDominantColors (img : ImageData) (maxColors : Z) : list ColorSample :=
  let pixelCount := width img * height img in
  let colorMap :=
    fold_left
      (fun colorMap i =>
         let idx := i * 4 in
         let r := get (data img) idx in
         let g := get (data img) (idx + 1) in
         let b := get (data img) (idx + 2) in
         let hsv := rgbToHsv r g b in
         let quantizedR := r / 16 * 16 in
         let quantizedG := g / 16 * 16 in
         let quantizedB := b / 16 * 16 in
         countColor (quantizedR, quantizedG, quantizedB)
           (mkColorSample 1 quantizedR quantizedG quantizedB (hsv_h hsv) (hsv_s hsv) (hsv_v hsv))
           colorMap)
      (sampledPixels pixelCount) [] in
  slice
    (arraySort (fun a b => JS.ofZ (count b - count a)) (map snd colorMap))
    0 maxColors.

Record HarmonyCounts : Type := mkHarmonyCounts {
  complementaryCount : Z;
  analogousCount : Z;
  triadicCount : Z
}.

Definition classifyPair (ci cj : ColorSample) (n : HarmonyCounts) : HarmonyCounts :=
  let hueDiff := JS.abs (JS.sub (hue ci) (hue cj)) in
  let normalizedHueDiff := JS.min hueDiff (JS.sub (JS.ofZ 360) hueDiff) in
  if JS.gt normalizedHueDiff (JS.ofZ 165) && JS.lt normalizedHueDiff (JS.ofZ 195) then
    mkHarmonyCounts (complementaryCount n + 1) (analogousCount n) (triadicCount n)
  else if JS.lt normalizedHueDiff (JS.ofZ 30) then
    mkHarmonyCounts (complementaryCount n) (analogousCount n + 1) (triadicCount n)
  else if JS.gt normalizedHueDiff (JS.ofZ 105) && JS.lt normalizedHueDiff (JS.ofZ 135) then
    mkHarmonyCounts (complementaryCount n) (analogousCount n) (triadicCount n + 1)
  else n.

(** The loops over [i] and [j > i]. *)
Fixpoint harmonyPairs (colors : list ColorSample) (n : HarmonyCounts) : HarmonyCounts :=
  match colors with
  | [] => n
  | ci :: rest => harmonyPairs rest (fold_left (fun n cj => classifyPair ci cj n) rest n)
  end.

Definition analyzeColorHarmony (img : ImageData) : JS.num :=
  let colors := extractDominantColors img 5 in
  let len := Z.of_nat (length colors) in
  if len >=? 2 then
    let n := harmonyPairs colors (mkHarmonyCounts 0 0 0) in
    JS.min (JS.ofZ 1)
      (JS.div
         (JS.add
            (JS.add (JS.mul (JS.ofZ (complementaryCount n)) c0_3)
                    (JS.mul (JS.ofZ (analogousCount n)) c0_2))
            (JS.mul (JS.ofZ (triadicCount n)) c0_2))
         (JS.ofZ len))
  else JS.ofZ 0.

(** [findEdges].  [gx] and [gy] are integers, and the test
    [Math.sqrt(gx * gx + gy * gy) > 30] is the test [gx * gx + gy * gy > 900]
    (the square root is increasing and exact at 900). *)
Definition findEdges (img : ImageData) : list Z :=
  let w := width img in
  let h := height img in
  let gray := grayscale (data img) in
  fold_left
    (fun edges y =>
       fold_left
         (fun edges x =>
            let idx := y * w + x in
            let gx := Z.abs (get gray (idx - 1) - get gray (idx + 1)) in
            let gy := Z.abs (get gray (idx - w) - get gray (idx + w)) in
            set edges idx (if gx * gx + gy * gy >? 900 then 255 else 0))
         (forLoop 1 (w - 1) 1) edges)
    (forLoop 1 (h - 1) 1)
    (repeat 0 (Z.to_nat (w * h))).

(** The pixels ([x], [y]) in the order of the loops over [y], then [x]. *)
Definition pixelGrid (w h : Z) : list (Z * Z) :=
  flat_map (fun y => map (fun x => (x, y)) (forLoop 0 w 1)) (forLoop 0 h 1).

Definition calculateRuleOfThirdsScore
    (edges : list Z) (w h thirdX1 thirdX2 thirdY1 thirdY2 : Z) : JS.num :=
  let regionSize := Z.min w h / 10 in
  let regions :=
    [(thirdX1, thirdY1); (thirdX2, thirdY1); (thirdX1, thirdY2); (thirdX2, thirdY2)] in
  let '(totalEdgePixels, intersectionEdgePixels) :=
    fold_left
      (fun '(total, inter) '(x, y) =>
         let idx := y * w + x in
         if get edges idx >? 0 then
           (total + 1,
            if existsb
                 (fun '(rx, ry) =>
                    (Z.abs (x - rx) <=? regionSize) && (Z.abs (y - ry) <=? regionSize))
                 regions
            then inter + 1 else inter)
         else (total, inter))
      (pixelGrid w h) (0, 0) in
  if totalEdgePixels =? 0 then c0_5
  else
    let expectedRatio := JS.div (JS.ofZ (4 * regionSize * regionSize)) (JS.ofZ (w * h)) in
    let actualRatio := JS.div (JS.ofZ intersectionEdgePixels) (JS.ofZ totalEdgePixels) in
    JS.min (JS.ofZ 1) (JS.div actualRatio (JS.mul expectedRatio (JS.ofZ 2))).

Record Weights : Type := mkWeights {
  leftWeight : Z;
  rightWeight : Z;
  topWeight : Z;
  bottomWeight : Z
}.

(** The counting loop of [calculateVisualBalance]. *)
Definition balanceWeights (edges : list Z) (w h : Z) : Weights :=
  let centerX := w / 2 in
  let centerY := h / 2 in
  fold_left
    (fun wt '(x, y) =>
       let idx := y * w + x in
       if get edges idx >? 0 then
         let wt :=
           if x <? centerX
           then mkWeights (leftWeight wt + 1) (rightWeight wt) (topWeight wt) (bottomWeight wt)
           else mkWeights (leftWeight wt) (rightWeight wt + 1) (topWeight wt) (bottomWeight wt) in
         if y <? centerY
         then mkWeights (leftWeight wt) (rightWeight wt) (topWeight wt + 1) (bottomWeight wt)
         else mkWeights (leftWeight wt) (rightWeight wt) (topWeight wt) (bottomWeight wt + 1)
       else wt)
    (pixelGrid w h) (mkWeights 0 0 0 0).

(** [Math.min(a, b) / Math.max(a, b)] on two counters. *)
Definition balanceRatio (a b : Z) : JS.num :=
  JS.div (JS.ofZ (Z.min a b)) (JS.ofZ (Z.max a b)).

Definition calculateVisualBalance (edges : list Z) (w h : Z) : JS.num :=
  let wt := balanceWeights edges w h in
  let horizontalBalance := balanceRatio (leftWeight wt) (rightWeight wt) in
  let verticalBalance := balanceRatio (topWeight wt) (bottomWeight wt) in
  JS.add (JS.mul horizontalBalance c0_5) (JS.mul verticalBalance c0_5).

Definition analyzeComposition (img : ImageData) : JS.num :=
  let w := width img in
  let h := height img in
  let thirdX1 := w / 3 in
  let thirdX2 := w * 2 / 3 in
  let thirdY1 := h / 3 in
  let thirdY2 := h * 2 / 3 in
  let edges := findEdges img in
  let ruleOfThirdsScore :=
    calculateRuleOfThirdsScore edges w h thirdX1 thirdX2 thirdY1 thirdY2 in
  let balanceScore := calculateVisualBalance edges w h in
  JS.add (JS.mul ruleOfThirdsScore c0_6) (JS.mul balanceScore c0_4).

(** A percentile loop of [analyzeContrast]: the first [i] of [order] at which
    the running sum reaches [threshold], or [dflt] when the loop ends without
    a [break]. *)
Fixpoint percentile (order : list Z) (histogram : list Z) (threshold : JS.num)
    (sum dflt : Z) : Z :=
  match order with
  | [] => dflt
  | i :: rest =>
      let sum := sum + get histogram i in
      if JS.ge (JS.ofZ sum) threshold then i
      else percentile rest histogram threshold sum dflt
  end.

Definition analyzeContrast (img : ImageData) : JS.num :=
  let histogram := histogramOf img in
  let pixelCount := width img * height img in
  let threshold := JS.mul (JS.ofZ pixelCount) c0_05 in
  let p5 := percentile (forLoop 0 256 1) histogram threshold 0 0 in
  let p95 := percentile (rev (forLoop 0 256 1)) histogram threshold 0 255 in
  let contrastRange := p95 - p5 in
  JS.min (JS.ofZ 1) (JS.div (JS.ofZ contrastRange) (JS.ofZ 200)).

Record AestheticResult : Type := mkAestheticResult {
  meanScore : JS.num;
  scoreDistribution : list JS.num
}.

Section Aesthetics.
Context `{MathLib}.

Definition generateScoreDistribution (meanScore : JS.num) : list JS.num :=
  let stdDev := JS.ofZ 1 in
  let distribution :=
    map
      (fun i =>
         let score := JS.ofZ (i + 1) in
         let z := JS.div (JS.sub score meanScore) stdDev in
         exp (JS.mul (JS.mul (JS.Fin (- 1 # 2)) z) z))
      (forLoop 0 10 1) in
  let sum := sumNum distribution in
  map (fun d => JS.div d sum) distribution.

Definition analyzeAesthetics (img : ImageData) : AestheticResult :=
  let colorScore := analyzeColorHarmony img in
  let compositionScore := analyzeComposition img in
  let contrastScore := analyzeContrast img in
  let meanScore :=
    JS.add
      (JS.mul
         (JS.add (JS.add (JS.mul colorScore c0_4) (JS.mul compositionScore c0_4))
                 (JS.mul contrastScore c0_2))
         (JS.ofZ 9))
      (JS.ofZ 1) in
  mkAestheticResult meanScore (generateScoreDistribution meanScore).

End Aesthetics.

(** ** Face expressions *)

Record Expression : Type := mkExpression {
  happy : JS.num;
  sad : JS.num;
  angry : JS.num;
  fearful : JS.num;
  disgusted : JS.num;
  surprised : JS.num;
  neutral : JS.num
}.

Record FaceExpressionResult : Type := mkFaceExpressionResult {
  faceCount : Z;
  expressions : list Expression;
  bestExpressionScore : JS.num
}.

Definition noFaces : FaceExpressionResult :=
  mkFaceExpressionResult 0 [] (JS.ofZ 0).

Definition totalScore (expression : Expression) : JS.num :=
  let happyScore := JS.mul (happy expression) (JS.ofZ 1) in
  let neutralScore := JS.mul (neutral expression) c0_7 in
  let surprisedScore := JS.mul (surprised expression) c0_5 in
  let negativeScore :=
    JS.mul
      (JS.add (JS.add (JS.add (sad expression) (angry expression)) (fearful expression))
              (disgusted expression))
      c0_1 in
  JS.sub (JS.add (JS.add happyScore neutralScore) surprisedScore) negativeScore.

(** [analyzeFaceExpressions] on the answer of the face detector; [None] is
    a detector that throws, which the function catches. *)
Definition analyzeFaceExpressions (detections : option (list Expression)) : FaceExpressionResult :=
  match detections with
  | None => noFaces
  | Some [] => noFaces
  | Some exprs =>
      let best := fold_left (fun best e => JS.max best (totalScore e)) exprs (JS.ofZ 0) in
      mkFaceExpressionResult (Z.of_nat (length exprs)) exprs
        (JS.min (JS.ofZ 1) (JS.max (JS.ofZ 0) best))
  end.

(** ** Score fusion *)

Definition calculateOverallScore
    (technicalQuality : TechnicalQualityResult)
    (aesthetics : AestheticResult)
    (faceExpressions : FaceExpressionResult) : JS.num :=
  let technicalScore := JS.mul (t_overallScore technicalQuality) c0_4 in
  let aestheticScore := JS.mul (JS.div (meanScore aesthetics) (JS.ofZ 10)) c0_4 in
  let faceScore :=
    if faceCount faceExpressions >? 0
    then JS.mul (bestExpressionScore faceExpressions) c0_2
    else JS.ofZ 0 in
  if faceCount faceExpressions >? 0
  then JS.add (JS.add technicalScore aestheticScore) faceScore
  else JS.add (JS.mul technicalScore c0_5) (JS.mul aestheticScore c0_5).

(** ** The batch *)

Record Photo : Type := mkPhoto { id : string; baseUrl : string }.

Record AnalysisResult : Type := mkAnalysisResult {
  photoId : string;
  technicalQuality : TechnicalQualityResult;
  aesthetics : AestheticResult;
  faceExpressions : FaceExpressionResult;
  overallScore : JS.num
}.

(** What [startAnalysis] does to the component and to its caller, in
    order. *)
Inductive Event : Type :=
| SetIsAnalyzing (b : bool)
| SetProgress (p : JS.num)
| SetResults (rs : list AnalysisResult)
| LogError (i : Z)
| OnAnalysisComplete (rs : list AnalysisResult).

(** The [setProgress] calls of a trace. *)
Definition progressUpdates (trace : list Event) : list JS.num :=
  flat_map (fun e => match e with SetProgress p => [p] | _ => [] end) trace.

(** The list that [onAnalysisComplete] receives, when it is called. *)
Definition delivered (trace : list Event) : option (list AnalysisResult) :=
  match flat_map (fun e => match e with OnAnalysisComplete rs => [rs] | _ => [] end) trace with
  | [rs] => Some rs
  | _ => None
  end.

(** The URL that the loop requests for a photo. *)
Definition imageUrl (photo : Photo) : string := (baseUrl photo ++ "=w1024-h1024")%string.

Section Batch.
Context `{MathLib}.

(** The image loader: the pixels of the image at a URL, or [None] when
    [img.onerror] fires. *)
Variable loadImage : string -> option ImageData.

(** The face detector on a loaded image; [None] when it throws. *)
Variable detectAllFaces : ImageData -> option (list Expression).

(** The body of the [try] block up to the new entry of [analysisResults]. *)
Definition analyzePhoto (photo : Photo) : option AnalysisResult :=
  match loadImage (imageUrl photo) with
  | None => None
  | Some img =>
      let technicalQuality := analyzeTechnicalQuality img in
      let aesthetics := analyzeAesthetics img in
      let faceExpressions := analyzeFaceExpressions (detectAllFaces img) in
      let overallScore := calculateOverallScore technicalQuality aesthetics faceExpressions in
      Some (mkAnalysisResult (id photo) technicalQuality aesthetics faceExpressions overallScore)
  end.

(** [Math.round(((i + 1) / photos.length) * 100)]. *)
Definition progressAt (i n : Z) : JS.num :=
  JS.round (JS.mul (JS.div (JS.ofZ (i + 1)) (JS.ofZ n)) (JS.ofZ 100)).

(** Round [i] of the loop: the entry it pushes, if any, and what it
    emits. *)
Definition iteration (n i : Z) (photo : Photo) : option AnalysisResult * list Event :=
  match analyzePhoto photo with
  | Some r => (Some r, [SetProgress (progressAt i n)])
  | None => (None, [LogError i])
  end.

(** The loop from round [i] on: [analysisResults] and the trace at its
    end. *)
Fixpoint analysisLoop (n i : Z) (rest : list Photo) (analysisResults : list AnalysisResult)
  : list AnalysisResult * list Event :=
  match rest with
  | [] => (analysisResults, [])
  | photo :: rest' =>
      let '(pushed, emitted) := iteration n i photo in
      let analysisResults :=
        match pushed with
        | Some r => analysisResults ++ [r]
        | None => analysisResults
        end in
      let '(final, trace) := analysisLoop n (i + 1) rest' analysisResults in
      (final, emitted ++ trace)
  end.

Definition sortResults (analysisResults : list AnalysisResult) : list AnalysisResult :=
  arraySort (fun a b => JS.sub (overallScore b) (overallScore a)) analysisResults.

(** [startAnalysis]: its trace.  [modelsLoaded] is the state of the
    component and [hasCanvas] tells whether [canvasRef.current] is set. *)
Definition startAnalysis (modelsLoaded hasCanvas : bool) (photos : list Photo) : list Event :=
  if negb modelsLoaded || (Z.of_nat (length photos) =? 0) || negb hasCanvas then []
  else
    let n := Z.of_nat (length photos) in
    let '(analysisResults, trace) := analysisLoop n 0 photos [] in
    let sorted := sortResults analysisResults in
    [SetIsAnalyzing true; SetProgress (JS.ofZ 0); SetResults []]
      ++ trace
      ++ [SetResults sorted; SetIsAnalyzing false; OnAnalysisComplete sorted].

(** The entries that the photos of a list push, in order. *)
Definition successes (l : list Photo) : list AnalysisResult :=
  flat_map (fun p => match analyzePhoto p with Some r => [r] | None => [] end) l.

(** The progress values that the rounds from position [i] on report. *)
Fixpoint reported (n i : Z) (l : list Photo) : list JS.num :=
  match l with
  | [] => []
  | p :: l' =>
      match analyzePhoto p with
      | Some _ => progressAt i n :: reported n (i + 1) l'
      | None => reported n (i + 1) l'
      end
  end.

End Batch.

(** The positions [start], [start + 1], ... of [len] successive photos. *)
Definition positions (start : Z) (len : nat) : list Z :=
  map (fun k => start + Z.of_nat k) (seq 0 len).

(** The skip semantics as the specification words it: N-1 entries without
    the id of P, and one progress value after every photo of the batch,
    skipped or not. *)
Definition skip_semantics_as_specified `{MathLib}
    (loadImage : string -> option ImageData)
    (detectAllFaces : ImageData -> option (list Expression))
    (photos : list Photo) (P : Photo) : Prop :=
  let n := Z.of_nat (length photos) in
  let trace := startAnalysis loadImage detectAllFaces true true photos in
  (exists rs,
     delivered trace = Some rs /\
     length rs = (length photos - 1)%nat /\
     ~ In (id P) (map photoId rs)) /\
  (forall i photo,
     nth_error photos i = Some photo ->
     progressUpdates (snd (iteration loadImage detectAllFaces n (Z.of_nat i) photo))
     = [progressAt (Z.of_nat i) n]).


(** ** Test data *)

Definition flatImage (w h : Z) (r g b a : Z) : ImageData :=
  mkImageData w h (concat (repeat [r; g; b; a] (Z.to_nat (w * h)))).

(** The uniform gray image of 64 by 64 pixels. *)
Definition gray64 : ImageData := flatImage 64 64 128 128 128 255.

(** Two photos, a loader that finds no image for the first one, a loader
    that finds a uniform gray image of 4 by 4 pixels for every photo, and a
    detector that sees no face. *)
Definition photoA : Photo := mkPhoto "a" "https://photos.example/a".
Definition photoB : Photo := mkPhoto "b" "https://photos.example/b".

Definition gray4 : ImageData := flatImage 4 4 128 128 128 255.

Definition loaderWithoutA (url : string) : option ImageData :=
  if String.eqb url (imageUrl photoA) then None else Some gray4.

Definition loaderGray (url : string) : option ImageData := Some gray4.

Definition noFaceDetector (img : ImageData) : option (list Expression) := Some [].

(** An image with one vertical edge: the left half black, the right half
    white. *)
Definition splitImage (w h : Z) : ImageData :=
  mkImageData w h
    (flat_map
       (fun '(x, y) => if x <? w / 2 then [0; 0; 0; 255] else [255; 255; 255; 255])
       (pixelGrid w h)).

(** A noisy image of 8 by 20 pixels: the rows alternate black and white. *)
Definition stripes_8x20 : ImageData :=
  mkImageData 8 20
    (concat
       (repeat (concat (repeat [0; 0; 0; 255] 8) ++ concat (repeat [255; 255; 255; 255] 8))
          10)).

(** A photo with the id of [photoA] at another URL. *)
Definition photoA' : Photo := mkPhoto "a" "https://photos.example/a2".

(** [wf_image] as a test. *)
Definition wf_imageb (img : ImageData) : bool :=
  (0 <? width img) && (0 <? height img) &&
  (Z.of_nat (length (data img)) =? 4 * width img * height img) &&
  forallb (fun v => (0 <=? v) && (v <=? 255)) (data img).

(** A [MathLib]: the square root of IEEE-754 and the exponential as a
    partial sum of its series (of the opposite argument, inverted, below
    0). *)
Fixpoint expSeries (terms : nat) (k : Z) (x term : JS.num) : JS.num :=
  match terms with
  | O => JS.ofZ 0
  | S terms' =>
      JS.add term (expSeries terms' (k + 1) x (JS.div (JS.mul term x) (JS.ofZ k)))
  end.

Definition expApprox (x : JS.num) : JS.num :=
  if JS.lt x (JS.ofZ 0)
  then JS.div (JS.ofZ 1) (expSeries 150 1 (JS.neg x) (JS.ofZ 1))
  else expSeries 150 1 x (JS.ofZ 1).

Definition rationalMath : MathLib :=
  {| Msqrt := SFsqrt JS.prec JS.emax; Mexp := expApprox |}.

(** * Properties *)

(** ** Arithmetic with NaN *)

Lemma add_NaN_r (x : JS.num) : JS.add x JS.NaN = JS.NaN.
Proof. destruct x; reflexivity. Qed.

Lemma add_NaN_l (x : JS.num) : JS.add JS.NaN x = JS.NaN.
Proof. reflexivity. Qed.

Lemma mul_NaN_r (x : JS.num) : JS.mul x JS.NaN = JS.NaN.
Proof. destruct x; reflexivity. Qed.

Lemma mul_NaN_l (x : JS.num) : JS.mul JS.NaN x = JS.NaN.
Proof. reflexivity. Qed.

Lemma within_NaN (lo hi : JS.num) : JS.within lo hi JS.NaN = false.
Proof. destruct lo; reflexivity. Qed.

(** ** Loops *)

Lemma upto_lower (fuel : nat) (i hi step x : Z) :
  0 <= step -> In x (upto fuel i hi step) -> i <= x.
Proof.
  intros Hstep. revert i.
  induction fuel as [|fuel IH]; intros i; simpl; [tauto|].
  destruct (i <? hi); simpl; [|tauto].
  intros [<-|Hin]; [lia|].
  apply IH in Hin. lia.
Qed.

Lemma upto_upper (fuel : nat) (i hi step x : Z) :
  In x (upto fuel i hi step) -> x < hi.
Proof.
  revert i. induction fuel as [|fuel IH]; intros i; simpl; [tauto|].
  destruct (Z.ltb_spec i hi); simpl; [|tauto].
  intros [<-|Hin]; [assumption|]. now apply IH in Hin.
Qed.

Lemma forLoop_bounds (lo hi step x : Z) :
  0 <= step -> In x (forLoop lo hi step) -> lo <= x < hi.
Proof.
  intros Hstep Hin. split.
  - now apply upto_lower in Hin.
  - now apply upto_upper in Hin.
Qed.

(** The fuel of [forLoop] never ends a loop: with a positive step the loop
    visits exactly the values [lo + k * step] below [hi]. *)
Lemma upto_complete (fuel : nat) (i hi step k : Z) :
  0 < step -> 0 <= k -> i + k * step < hi -> (Z.to_nat (hi - i) <= fuel)%nat ->
  In (i + k * step) (upto fuel i hi step).
Proof.
  intros Hstep. revert i k.
  induction fuel as [|fuel IH]; intros i k Hk Hlt Hfuel; [nia|].
  simpl. destruct (Z.ltb_spec i hi); [|nia].
  destruct (Z.eq_dec k 0) as [->|Hk0]; [left; lia|right].
  replace (i + k * step) with (i + step + (k - 1) * step) by ring.
  apply IH; nia.
Qed.

Lemma upto_shape (fuel : nat) (i hi step x : Z) :
  In x (upto fuel i hi step) -> exists k, 0 <= k /\ x = i + k * step.
Proof.
  revert i. induction fuel as [|fuel IH]; intros i; simpl; [tauto|].
  destruct (i <? hi); simpl; [|tauto].
  intros [<-|Hin]; [exists 0; lia|].
  apply IH in Hin. destruct Hin as [k [Hk ->]]. exists (k + 1). lia.
Qed.

Lemma forLoop_spec (lo hi step x : Z) :
  0 < step ->
  In x (forLoop lo hi step) <-> exists k, 0 <= k /\ x = lo + k * step /\ x < hi.
Proof.
  intros Hstep. split.
  - intros Hin. destruct (upto_shape _ _ _ _ _ Hin) as [k [Hk ->]].
    exists k. repeat split; [assumption|]. now apply upto_upper in Hin.
  - intros [k (Hk & -> & Hlt)]. apply upto_complete; lia.
Qed.

Lemma fold_left_ext_in {A B : Type} (f g : A -> B -> A) (l : list B) (a : A) :
  (forall a b, In b l -> f a b = g a b) -> fold_left f l a = fold_left g l a.
Proof.
  revert a. induction l as [|b l IH]; intros a Hfg; simpl; [reflexivity|].
  rewrite Hfg by now left. apply IH. intros a' b' Hb'. apply Hfg. now right.
Qed.

(** A loop of [len] rounds got through [len - 1] steps below its bound. *)
Lemma upto_length (fuel : nat) (i hi step : Z) :
  0 < step ->
  upto fuel i hi step = [] \/
  (Z.of_nat (length (upto fuel i hi step)) - 1) * step < hi - i.
Proof.
  intros Hstep. revert i.
  induction fuel as [|fuel IH]; intros i; simpl; [now left|].
  destruct (Z.ltb_spec i hi) as [Hlt|_]; [right|now left].
  destruct (IH (i + step)) as [->|Hlen]; simpl length; nia.
Qed.

Lemma forLoop_empty (lo hi step : Z) : hi <= lo -> forLoop lo hi step = [].
Proof.
  intros Hle. unfold forLoop.
  replace (Z.to_nat (hi - lo)) with 0%nat by lia. reflexivity.
Qed.

Lemma flat_map_nil {A B : Type} (f : A -> list B) (l : list A) :
  (forall a, f a = []) -> flat_map f l = [].
Proof.
  intros Hf. induction l as [|a l IH]; simpl; [reflexivity|].
  now rewrite Hf, IH.
Qed.

Lemma fold_left_fixed {A B : Type} (f : A -> B -> A) (l : list B) (a : A) :
  (forall b, In b l -> f a b = a) -> fold_left f l a = a.
Proof.
  induction l as [|b l IH]; simpl; intros Hf; [reflexivity|].
  rewrite (Hf b) by now left.
  apply IH. intros b' Hb'. apply Hf. now right.
Qed.

(** ** Sorting *)

Lemma insertSorted_perm {A : Type} (before : A -> A -> bool) (x : A) (l : list A) :
  Permutation (x :: l) (insertSorted before x l).
Proof.
  induction l as [|y l IH]; simpl; [reflexivity|].
  destruct (before x y); [reflexivity|].
  rewrite perm_swap. now constructor.
Qed.

Lemma arraySort_perm_acc {A : Type} (before : A -> A -> bool) (l sorted : list A) :
  Permutation (sorted ++ l)
    (fold_left (fun sorted x => insertSorted before x sorted) l sorted).
Proof.
  revert sorted. induction l as [|x l IH]; intros sorted; simpl.
  - now rewrite app_nil_r.
  - etransitivity; [|apply IH].
    etransitivity; [apply Permutation_sym, Permutation_middle|].
    change (x :: sorted ++ l) with ((x :: sorted) ++ l).
    apply Permutation_app_tail, insertSorted_perm.
Qed.

(** [sort] keeps the elements of the array. *)
Lemma arraySort_perm {A : Type} (comparefn : A -> A -> JS.num) (l : list A) :
  Permutation l (arraySort comparefn l).
Proof. exact (arraySort_perm_acc _ l []). Qed.

(** ** Test data *)

Lemma wf_imageb_sound (img : ImageData) : wf_imageb img = true -> wf_image img.
Proof.
  unfold wf_imageb, wf_image. rewrite !andb_true_iff, !Z.ltb_lt, Z.eqb_eq.
  intros [[[Hw Hh] Hlen] Hall]. repeat split; try assumption.
  apply Forall_forall. intros v Hv.
  apply (proj1 (forallb_forall _ _) Hall) in Hv. lia.
Qed.

Lemma test_images_wf :
  wf_image gray64 /\ wf_image gray4 /\
  wf_image (flatImage 1 1 128 128 128 255) /\
  wf_image (flatImage 2 2 128 128 128 255) /\
  wf_image (flatImage 8 8 128 128 128 255) /\
  wf_image (splitImage 20 20) /\ wf_image stripes_8x20.
Proof. repeat apply conj; apply wf_imageb_sound; vm_compute; reflexivity. Qed.

(** The scores are numbers when the image has edge pixels on both sides of
    both midlines: the image of 20 by 20 pixels with one vertical edge has 18
    edge pixels in each half, balance 1 and a composition score of 0.4. *)
Example splitImage_scores :
  let img := splitImage 20 20 in
  balanceWeights (findEdges img) 20 20 = mkWeights 18 18 18 18 /\
  calculateVisualBalance (findEdges img) 20 20 = JS.Fin 1 /\
  analyzeComposition img = JS.Fin (2 # 5) /\
  detectBlur img = JS.Fin 1 /\
  detectNoise img = JS.Fin 1 /\
  analyzeColorHarmony img = JS.Fin (1 # 10) /\
  analyzeContrast img = JS.Fin 1.
Proof. intros img. repeat apply conj; vm_compute; reflexivity. Qed.

(** Progress values: thirds of a batch of three, and the half percent of a
    batch of 200, which rounds up. *)
Example progressAt_values :
  progressAt 0 3 = JS.Fin 33 /\ progressAt 1 3 = JS.Fin 67 /\
  progressAt 2 3 = JS.Fin 100 /\ progressAt 0 200 = JS.Fin 1.
Proof. repeat apply conj; vm_compute; reflexivity. Qed.

(** The progress is rounded from the double: for the photo at position 22
    of 40, [(23 / 40) * 100] is 57.49999999999999 and the progress is 57,
    where the fraction 2300/40 is 57.5. *)
Example progressAt_22_of_40 :
  JS.lt (JS.mul (JS.div (JS.ofZ 23) (JS.ofZ 40)) (JS.ofZ 100)) (JS.Fin (115 # 2)) = true /\
  progressAt 22 40 = JS.Fin 57.
Proof. split; vm_compute; reflexivity. Qed.

(** The luma is rounded from the double as well: [0.587 * 36 + 0.114 * 12]
    is 22.499999999999996 and the gray of (0, 36, 12) is 22. *)
Example luma_0_36_12 : luma 0 36 12 = 22.
Proof. vm_compute. reflexivity. Qed.

(** The hue of (33, 18, 3) is 29.999999999999996, below 30. *)
Example rgbToHsv_33_18_3 :
  JS.lt (hsv_h (rgbToHsv 33 18 3)) (JS.ofZ 30) = true.
Proof. vm_compute. reflexivity. Qed.

(** Decimal literals are the nearest doubles: [0.1 + 0.2] is not [0.3]. *)
Example literals_are_doubles :
  JS.eqb (JS.add c0_1 c0_2) c0_3 = false /\ JS.gt (JS.add c0_1 c0_2) c0_3 = true.
Proof. split; vm_compute; reflexivity. Qed.

(** [Math.round] takes the upper one of two nearest integers, and [%] the
    sign of its dividend. *)
Example round_and_rem :
  JS.round (JS.Fin (5 # 2)) = JS.Fin 3 /\
  JS.round (JS.Fin (- 5 # 2)) = JS.Fin (- 2) /\
  JS.round (JS.Fin (- 1 # 4)) = JS.neg (JS.ofZ 0) /\
  JS.rem (JS.Fin (15 # 2)) (JS.ofZ 6) = JS.Fin (3 # 2) /\
  JS.rem (JS.Fin (- 7 # 2)) (JS.ofZ 6) = JS.Fin (- 7 # 2).
Proof. repeat apply conj; vm_compute; reflexivity. Qed.

(** ** Score fusion *)

(** C2: with a face, the overall score is
    [T.overallScore*0.4 + (A.meanScore/10)*0.4 + F.bestExpressionScore*0.2];
    with no face, it is
    [(T.overallScore*0.4)*0.5 + ((A.meanScore/10)*0.4)*0.5]: each weighted
    term is halved, the weights are not renormalized. *)
Theorem calculateOverallScore_formula
    (T : TechnicalQualityResult) (A : AestheticResult) (F : FaceExpressionResult) :
  (faceCount F > 0 ->
   calculateOverallScore T A F =
   JS.add
     (JS.add (JS.mul (t_overallScore T) c0_4)
             (JS.mul (JS.div (meanScore A) (JS.ofZ 10)) c0_4))
     (JS.mul (bestExpressionScore F) c0_2)) /\
  (faceCount F = 0 ->
   calculateOverallScore T A F =
   JS.add
     (JS.mul (JS.mul (t_overallScore T) c0_4) c0_5)
     (JS.mul (JS.mul (JS.div (meanScore A) (JS.ofZ 10)) c0_4) c0_5)).
Proof.
  unfold calculateOverallScore. split; intros HF.
  - destruct (Z.gtb_spec (faceCount F) 0) as [_|Hle]; [reflexivity|lia].
  - rewrite HF. reflexivity.
Qed.

(** The formula on a perfect photo, with two faces and with none. *)
Lemma calculateOverallScore_formula_witness :
  let T := mkTechnicalQualityResult (JS.ofZ 1) (JS.ofZ 1) (JS.ofZ 1) (JS.ofZ 1) in
  let A := mkAestheticResult (JS.ofZ 10) [] in
  calculateOverallScore T A (mkFaceExpressionResult 2 [] (JS.ofZ 1)) = JS.Fin 1 /\
  calculateOverallScore T A noFaces = JS.Fin (2 # 5).
Proof.
  intros T A. split.
  - rewrite (proj1 (calculateOverallScore_formula T A _)); [reflexivity|simpl; lia].
  - rewrite (proj2 (calculateOverallScore_formula T A _)); [reflexivity|reflexivity].
Defined.

(** A photo whose aesthetic mean is NaN has a NaN overall score. *)
Lemma calculateOverallScore_NaN
    (T : TechnicalQualityResult) (A : AestheticResult) (F : FaceExpressionResult) :
  meanScore A = JS.NaN -> calculateOverallScore T A F = JS.NaN.
Proof.
  intros HA. unfold calculateOverallScore. rewrite HA. simpl JS.div. simpl JS.mul at 2 4.
  destruct (faceCount F >? 0); rewrite ?mul_NaN_r, ?add_NaN_r; reflexivity.
Qed.

(** ** Blur *)

(** With fewer than three columns or rows every entry of the Laplacian is
    on the border: the variance loop counts nothing. *)
Lemma isBorder_degenerate (w h i : Z) :
  0 < w -> 0 < h -> w < 3 \/ h < 3 -> 0 <= i -> isBorder w h i = true.
Proof.
  intros Hw Hh Hsmall Hi. unfold isBorder.
  rewrite !orb_true_iff, !Z.eqb_eq, Z.ltb_lt, Z.geb_le.
  destruct Hsmall as [Hsmall|Hsmall].
  - assert (Hrem : 0 <= Z.rem i w < w) by (apply Z.rem_bound_pos; lia).
    assert (w = 1 \/ w = 2) as [->| ->] by lia; lia.
  - assert (h = 1 \/ h = 2) as [->| ->] by lia; lia.
Qed.

Lemma laplacianMoments_degenerate (lap : list Z) (w h : Z) :
  0 < w -> 0 < h -> w < 3 \/ h < 3 ->
  laplacianMoments lap w h = mkMoments 0 0 0.
Proof.
  intros Hw Hh Hsmall. unfold laplacianMoments.
  apply fold_left_fixed. intros i Hi.
  rewrite isBorder_degenerate; auto.
  apply upto_lower in Hi; lia.
Qed.

(** The blur score of an image with fewer than 3x3 pixels is NaN: the mean
    is 0/0 and nothing on the way to the score replaces it. *)
Lemma detectBlur_degenerate (img : ImageData) :
  0 < width img -> 0 < height img -> width img < 3 \/ height img < 3 ->
  detectBlur img = JS.NaN.
Proof.
  intros Hw Hh Hsmall. unfold detectBlur.
  rewrite laplacianMoments_degenerate by assumption. reflexivity.
Qed.

(** C5 (blur half): on the image of one pixel the variance loop of
    [detectBlur] counts no pixel, divides 0 by 0 and returns NaN; no neutral
    default replaces it.  The noise half holds: [detectNoise] returns its
    neutral 0.5. *)
Theorem detectBlur_one_pixel_is_NaN :
  let img := flatImage 1 1 128 128 128 255 in
  m_count (laplacianMoments (laplacianFilter (grayscale (data img)) 1 1) 1 1) = 0 /\
  detectBlur img = JS.NaN /\
  detectNoise img = c0_5.
Proof.
  intros img. split; [reflexivity|split].
  - apply detectBlur_degenerate; simpl; lia.
  - reflexivity.
Qed.

(** ** Noise *)

Lemma noiseBlocks_small (w h : Z) : w <= 8 \/ h <= 8 -> noiseBlocks w h 8 = [].
Proof.
  intros [Hw|Hh]; unfold noiseBlocks.
  - apply flat_map_nil. intros y. rewrite forLoop_empty by lia. reflexivity.
  - rewrite (forLoop_empty 0 (h - 8)) by lia. reflexivity.
Qed.

(** C10: when the width or the height is at most 8, the loops of
    [detectNoise] visit no block and the score is the neutral 0.5, whatever
    the pixels are. *)
Theorem detectNoise_small_image (img : ImageData) :
  width img <= 8 \/ height img <= 8 ->
  noiseBlocks (width img) (height img) 8 = [] /\ detectNoise img = c0_5.
Proof.
  intros Hsmall. split; [now apply noiseBlocks_small|].
  unfold detectNoise. rewrite noiseBlocks_small by assumption. reflexivity.
Qed.

(** The striped image of 8 by 20 pixels is noisy and scores 0.5. *)
Lemma detectNoise_small_image_witness :
  noiseBlocks 8 20 8 = [] /\ detectNoise stripes_8x20 = c0_5.
Proof.
  apply (detectNoise_small_image stripes_8x20). left. simpl. lia.
Defined.

(** C7: the loops of [detectNoise] run while [x < width - 8] and
    [y < height - 8], so the last full block of a row or column whose length
    is a multiple of 8 is never a candidate.  On the uniform image of 8 by 8
    pixels the function counts [blocks = 1] but visits no block and answers
    0.5; over the partition into full blocks the only block is uniform with
    noise 0 and the score is 1.  On 16 by 16 pixels one block of four is
    visited. *)
Theorem detectNoise_skips_last_blocks :
  let img := flatImage 8 8 128 128 128 255 in
  blocks img 8 = 1 /\
  noiseBlocks 8 8 8 = [] /\
  spec_partitionBlocks 8 8 8 = [(0, 0)] /\
  detectNoise img = c0_5 /\
  spec_detectNoise img = JS.Fin 1 /\
  noiseBlocks 16 16 8 = [(0, 0)] /\
  spec_partitionBlocks 16 16 8 = [(0, 0); (8, 0); (0, 8); (8, 8)].
Proof.
  intros img. repeat (split; [vm_compute; reflexivity|]). vm_compute; reflexivity.
Qed.

(** ** Visual balance *)

Lemma get_zeros (edges : list Z) (i : Z) :
  Forall (fun e => e = 0) edges -> get edges i = 0.
Proof.
  intros Hz. unfold get. generalize (Z.to_nat i) as n.
  induction Hz as [|e edges -> _ IH]; intros [|n]; simpl; auto.
Qed.

(** An edge map without edge pixels has no balance score: both ratios are
    0/0. *)
Lemma calculateVisualBalance_no_edges (edges : list Z) (w h : Z) :
  Forall (fun e => e = 0) edges -> calculateVisualBalance edges w h = JS.NaN.
Proof.
  intros Hz. unfold calculateVisualBalance.
  assert (Hw : balanceWeights edges w h = mkWeights 0 0 0 0).
  { unfold balanceWeights. apply fold_left_fixed. intros [x y] _.
    now rewrite get_zeros. }
  rewrite Hw. reflexivity.
Qed.

(** C6: on an edge map with no edge pixel the four counts are 0, both
    ratios are 0/0 and [calculateVisualBalance] returns NaN, not the balance
    1 of the convention. *)
Theorem calculateVisualBalance_empty_is_NaN :
  let edges := repeat 0 16%nat in
  balanceWeights edges 4 4 = mkWeights 0 0 0 0 /\
  balanceRatio 0 0 = JS.NaN /\
  calculateVisualBalance edges 4 4 = JS.NaN.
Proof.
  intros edges. split; [reflexivity|split; [reflexivity|]].
  apply calculateVisualBalance_no_edges. repeat constructor.
Qed.

(** ** Dominant colors *)

(** C8: an image of 1999 pixels has sample rate [max(1, floor(1.999)) = 1],
    and the sampling loop visits all its 1999 pixels. *)
Theorem sampledPixels_1999 :
  sampleRate 1999 = 1 /\ length (sampledPixels 1999) = 1999%nat.
Proof. split; vm_compute; reflexivity. Qed.

(** What the stride does guarantee: fewer than 2000 visited pixels. *)
Lemma sampledPixels_bound (pixelCount : Z) :
  (length (sampledPixels pixelCount) <= 1999)%nat.
Proof.
  unfold sampledPixels, forLoop, sampleRate.
  set (s := Z.max 1 (pixelCount / 1000)).
  assert (Hs : 1 <= s) by (unfold s; lia).
  destruct (upto_length (Z.to_nat (pixelCount - 0)) 0 pixelCount s) as [->|Hlen];
    [lia|simpl; lia|].
  assert (Hdiv : pixelCount < 1000 * s + 1000).
  { destruct (Z.le_gt_cases 0 pixelCount) as [Hn|Hn]; [|lia].
    pose proof (Z.div_mod pixelCount 1000 ltac:(lia)) as Hq.
    pose proof (Z.mod_pos_bound pixelCount 1000 ltac:(lia)) as Hm.
    unfold s. lia. }
  nia.
Qed.

(** ** Aesthetics *)

Section AestheticsProperties.
Context `{MathLib}.

(** A NaN composition score makes the aesthetic mean and its whole
    distribution NaN. *)
Lemma analyzeAesthetics_NaN (img : ImageData) :
  analyzeComposition img = JS.NaN ->
  meanScore (analyzeAesthetics img) = JS.NaN /\
  scoreDistribution (analyzeAesthetics img) = repeat JS.NaN 10.
Proof.
  intros Hc. unfold analyzeAesthetics. cbv zeta. cbn [meanScore scoreDistribution].
  rewrite Hc, mul_NaN_l, add_NaN_r.
  split; reflexivity.
Qed.

End AestheticsProperties.

(** ** Uniform images *)

Section Uniform.
Variables (w h r g b a : Z).

Let N : nat := Z.to_nat (w * h).

Lemma flat_data : data (flatImage w h r g b a) = concat (repeat [r; g; b; a] N).
Proof. reflexivity. Qed.

Lemma nth_quads (n k j : nat) :
  (k < n)%nat -> (j < 4)%nat ->
  nth (4 * k + j) (concat (repeat [r; g; b; a] n)) 0 = nth j [r; g; b; a] 0.
Proof.
  revert k. induction n as [|n IH]; intros k Hk Hj; [lia|].
  destruct k as [|k].
  - do 4 (destruct j as [|j]; [reflexivity|]). lia.
  - replace (4 * S k + j)%nat with (S (S (S (S (4 * k + j))))) by lia.
    simpl repeat. simpl concat. simpl nth at 1. apply IH; lia.
Qed.

(** The three channels of pixel [p] of a uniform image. *)
Lemma flat_pixel (p : Z) :
  0 <= p < w * h ->
  get (data (flatImage w h r g b a)) (p * 4) = r /\
  get (data (flatImage w h r g b a)) (p * 4 + 1) = g /\
  get (data (flatImage w h r g b a)) (p * 4 + 2) = b.
Proof.
  intros Hp. rewrite flat_data. unfold get.
  replace (Z.to_nat (p * 4)) with (4 * Z.to_nat p + 0)%nat by lia.
  replace (Z.to_nat (p * 4 + 1)) with (4 * Z.to_nat p + 1)%nat by lia.
  replace (Z.to_nat (p * 4 + 2)) with (4 * Z.to_nat p + 2)%nat by lia.
  rewrite !nth_quads by (unfold N; lia). repeat split.
Qed.

Lemma flat_grayscale :
  grayscale (data (flatImage w h r g b a)) = repeat (toUint8 (luma r g b)) N.
Proof.
  rewrite flat_data. induction N as [|n IH]; [reflexivity|].
  simpl. now rewrite IH.
Qed.

End Uniform.

Lemma get_repeat (c : Z) (n : nat) (i : Z) :
  0 <= i < Z.of_nat n -> get (repeat c n) i = c.
Proof.
  intros Hi. unfold get.
  rewrite (nth_indep _ 0 c) by (rewrite repeat_length; lia).
  apply nth_repeat.
Qed.

Lemma set_zeros (n : nat) (i : Z) : set (repeat 0 n) i 0 = repeat 0 n.
Proof.
  unfold set. destruct (i <? 0); [reflexivity|].
  generalize (Z.to_nat i) as k.
  induction n as [|n IH]; intros [|k]; simpl; try reflexivity.
  now rewrite IH.
Qed.

Lemma Forall_zeros (n : nat) : Forall (fun e => e = 0) (repeat 0 n).
Proof. induction n; simpl; constructor; auto. Qed.

(** The neighbours of an inner pixel are inside the buffer. *)
Lemma inner_pixel (w h x y : Z) :
  1 <= x < w - 1 -> 1 <= y < h - 1 ->
  0 <= y * w + x - w - 1 /\ y * w + x + w + 1 < Z.of_nat (Z.to_nat (w * h)).
Proof. intros Hx Hy. split; nia. Qed.

(** The Laplacian of a uniform buffer is 0 everywhere. *)
Lemma laplacianFilter_uniform (c w h : Z) :
  laplacianFilter (repeat c (Z.to_nat (w * h))) w h = repeat 0 (Z.to_nat (w * h)).
Proof.
  unfold laplacianFilter. rewrite repeat_length.
  apply fold_left_fixed. intros y Hy. apply fold_left_fixed. intros x Hx.
  apply forLoop_bounds in Hy; [|lia]. apply forLoop_bounds in Hx; [|lia].
  destruct (inner_pixel w h x y Hx Hy) as [Hlo Hhi].
  unfold laplacianAt. rewrite !get_repeat by lia.
  replace (-1 * c + -1 * c + -1 * c + -1 * c + 8 * c + -1 * c + -1 * c + -1 * c + -1 * c)
    with 0 by ring.
  apply set_zeros.
Qed.

(** The variance loop on a Laplacian of zeros: the sums are 0 and [count] is
    the number of entries that are not on the border. *)
Lemma laplacianMoments_zeros (lap : list Z) (w h : Z) :
  Forall (fun e => e = 0) lap ->
  laplacianMoments lap w h
  = mkMoments 0 0
      (Z.of_nat (length (filter (fun i => negb (isBorder w h i))
                                (forLoop 0 (Z.of_nat (length lap)) 1)))).
Proof.
  intros Hz. unfold laplacianMoments.
  generalize (forLoop 0 (Z.of_nat (length lap)) 1) as l.
  assert (Hgen : forall l c,
    fold_left
      (fun m i =>
         if isBorder w h i then m
         else let v := get lap i in
              mkMoments (m_sum m + v) (m_sumSquared m + v * v) (m_count m + 1))
      l (mkMoments 0 0 c)
    = mkMoments 0 0 (c + Z.of_nat (length (filter (fun i => negb (isBorder w h i)) l)))).
  { induction l as [|i l IH]; intros c; simpl.
    - now rewrite Z.add_0_r.
    - destruct (isBorder w h i); simpl.
      + apply IH.
      + rewrite (get_zeros lap i Hz). simpl. rewrite IH. f_equal. lia. }
  intros l. apply Hgen.
Qed.

(** [findEdges] finds no edge in a uniform image. *)
Lemma findEdges_uniform (w h r g b a : Z) :
  findEdges (flatImage w h r g b a) = repeat 0 (Z.to_nat (w * h)).
Proof.
  unfold findEdges. rewrite flat_grayscale.
  change (width (flatImage w h r g b a)) with w.
  change (height (flatImage w h r g b a)) with h.
  apply fold_left_fixed. intros y Hy. apply fold_left_fixed. intros x Hx.
  apply forLoop_bounds in Hy; [|lia]. apply forLoop_bounds in Hx; [|lia].
  destruct (inner_pixel w h x y Hx Hy) as [Hlo Hhi].
  cbv zeta. rewrite !get_repeat by lia.
  rewrite Z.sub_diag. apply set_zeros.
Qed.

Lemma calculateRuleOfThirdsScore_no_edges (edges : list Z) (w h x1 x2 y1 y2 : Z) :
  Forall (fun e => e = 0) edges ->
  calculateRuleOfThirdsScore edges w h x1 x2 y1 y2 = c0_5.
Proof.
  intros Hz. unfold calculateRuleOfThirdsScore.
  rewrite fold_left_fixed; [reflexivity|].
  intros [x y] _. now rewrite get_zeros.
Qed.

(** The composition score of every uniform image is NaN: there is no edge,
    the rule of thirds is the neutral 0.5 and the balance is 0/0. *)
Lemma analyzeComposition_uniform (w h r g b a : Z) :
  analyzeComposition (flatImage w h r g b a) = JS.NaN.
Proof.
  unfold analyzeComposition. rewrite findEdges_uniform.
  rewrite calculateRuleOfThirdsScore_no_edges by apply Forall_zeros.
  rewrite calculateVisualBalance_no_edges by apply Forall_zeros.
  reflexivity.
Qed.

(** The blocks that [detectNoise] visits are inside the image. *)
Lemma noiseBlocks_inside (w h x y : Z) :
  In (x, y) (noiseBlocks w h 8) -> 0 <= x < w - 8 /\ 0 <= y < h - 8.
Proof.
  unfold noiseBlocks. rewrite in_flat_map. intros [y' [Hy Hx]].
  apply in_map_iff in Hx. destruct Hx as [x' [[= <- <-] Hx]].
  apply forLoop_bounds in Hy; [|lia]. apply forLoop_bounds in Hx; [|lia]. lia.
Qed.

Lemma flat_map_map_const {A B : Type} (F : A -> A -> B) (c : B) (l1 l2 : list A) :
  (forall j, In j l1 -> forall i, In i l2 -> F j i = c) ->
  flat_map (fun j => map (F j) l2) l1 = flat_map (fun _ => map (fun _ => c) l2) l1.
Proof.
  intros HF. induction l1 as [|j l1 IH]; simpl; [reflexivity|].
  rewrite IH by (intros j' Hj'; apply HF; now right).
  f_equal. apply map_ext_in. intros i Hi. apply HF; [now left|assumption].
Qed.

(** A block inside a uniform image holds 64 times the gray of the image. *)
Lemma blockPixels_uniform (w h r g b a x y : Z) :
  0 <= x -> x + 8 <= w -> 0 <= y -> y + 8 <= h ->
  blockPixels (flatImage w h r g b a) x y 8 = repeat (luma r g b) 64.
Proof.
  intros Hx0 Hx1 Hy0 Hy1. unfold blockPixels.
  change (width (flatImage w h r g b a)) with w.
  rewrite (flat_map_map_const _ (luma r g b)); [reflexivity|].
  intros j Hj i Hi.
  apply forLoop_bounds in Hj; [|lia]. apply forLoop_bounds in Hi; [|lia].
  destruct (flat_pixel w h r g b a ((y + j) * w + (x + i))) as (-> & -> & ->);
    [nia|reflexivity].
Qed.

Lemma key_eqb_refl (key : ColorKey) : key_eqb key key = true.
Proof. destruct key as [[kr kg] kb]. simpl. now rewrite !Z.eqb_refl. Qed.

(** One color is counted however many pixels are sampled. *)
Lemma countColor_single (key : ColorKey) (fresh : ColorSample) (l : list Z) (m : ColorMap) :
  m = [] \/ (exists c, m = [(key, c)]) ->
  (length (fold_left (fun m _ => countColor key fresh m) l m) <= 1)%nat.
Proof.
  revert m. induction l as [|i l IH]; intros m Hm; simpl.
  - destruct Hm as [->|[c ->]]; simpl; lia.
  - apply IH. right. destruct Hm as [->|[c ->]]; simpl.
    + now exists fresh.
    + rewrite key_eqb_refl. eexists. reflexivity.
Qed.

(** The sampling loop finds one color in a uniform image, whose harmony
    score is therefore 0. *)
Lemma extractDominantColors_uniform (w h r g b a : Z) :
  (length (extractDominantColors (flatImage w h r g b a) 5) <= 1)%nat.
Proof.
  unfold extractDominantColors.
  change (width (flatImage w h r g b a)) with w.
  change (height (flatImage w h r g b a)) with h.
  set (key := (r / 16 * 16, g / 16 * 16, b / 16 * 16)).
  set (fresh := mkColorSample 1 (r / 16 * 16) (g / 16 * 16) (b / 16 * 16)
                  (hsv_h (rgbToHsv r g b)) (hsv_s (rgbToHsv r g b)) (hsv_v (rgbToHsv r g b))).
  rewrite (fold_left_ext_in _ (fun m _ => countColor key fresh m)).
  - pose proof (countColor_single key fresh (sampledPixels (w * h)) []) as Hone.
    unfold slice. rewrite length_firstn, length_skipn.
    rewrite <- (Permutation_length (arraySort_perm _ _)), length_map.
    specialize (Hone (or_introl eq_refl)). lia.
  - intros m i Hi. apply forLoop_bounds in Hi; [|unfold sampleRate; lia].
    destruct (flat_pixel w h r g b a i) as (-> & -> & ->); [lia|reflexivity].
Qed.

Lemma analyzeColorHarmony_uniform (w h r g b a : Z) :
  analyzeColorHarmony (flatImage w h r g b a) = JS.Fin 0.
Proof.
  unfold analyzeColorHarmony.
  pose proof (extractDominantColors_uniform w h r g b a) as Hlen.
  destruct (Z.geb_spec (Z.of_nat (length (extractDominantColors (flatImage w h r g b a) 5))) 2);
    [lia|reflexivity].
Qed.

(** ** The uniform gray image of 64 by 64 pixels *)

Lemma gray64_laplacianMoments :
  laplacianMoments (laplacianFilter (grayscale (data gray64)) 64 64) 64 64
  = mkMoments 0 0 3844.
Proof.
  unfold gray64. rewrite flat_grayscale, laplacianFilter_uniform.
  rewrite laplacianMoments_zeros by apply Forall_zeros.
  vm_compute. reflexivity.
Qed.

Lemma gray64_block (x y : Z) :
  In (x, y) (noiseBlocks 64 64 8) ->
  calculateBlockVariance gray64 x y 8 = mkBlockVariance (JS.Fin 0) (JS.Fin 0).
Proof.
  intros Hin. apply noiseBlocks_inside in Hin.
  unfold calculateBlockVariance, gray64.
  rewrite blockPixels_uniform by lia. vm_compute. reflexivity.
Qed.

Lemma gray64_noiseTotals :
  noiseTotals gray64 8 (noiseBlocks 64 64 8) = (JS.Fin 0, 49).
Proof.
  unfold noiseTotals.
  rewrite (fold_left_ext_in _
             (fun '(totalNoise, uniformBlocks) _ =>
                (JS.add totalNoise (JS.Fin 0), uniformBlocks + 1))).
  - vm_compute. reflexivity.
  - intros [totalNoise uniformBlocks] [x y] Hin.
    now rewrite (gray64_block x y Hin).
Qed.

(** The histogram loop on a uniform image counts all the pixels in the bin
    of their gray. *)
Lemma histogramLoop_uniform (r g b a : Z) (n : nat) (histogram : list Z) :
  histogramLoop (concat (repeat [r; g; b; a] n)) histogram
  = Nat.iter n
      (fun histogram => set histogram (luma r g b) (get histogram (luma r g b) + 1))
      histogram.
Proof.
  revert histogram. induction n as [|n IH]; intros histogram; [reflexivity|].
  rewrite Nat.iter_succ_r. simpl repeat. simpl concat. simpl histogramLoop.
  apply IH.
Qed.

Lemma luma_gray128 : luma 128 128 128 = 128.
Proof. vm_compute. reflexivity. Qed.

Lemma gray64_histogram :
  histogramOf gray64 = repeat 0 128 ++ 4096 :: repeat 0 127.
Proof.
  unfold histogramOf, gray64. rewrite flat_data, histogramLoop_uniform, luma_gray128.
  vm_compute. reflexivity.
Qed.

Lemma gray64_exposure_moments :
  exposureMean (normalizedHistogram gray64) = JS.Fin 128 /\
  exposureVariance (normalizedHistogram gray64) (exposureMean (normalizedHistogram gray64))
  = JS.Fin 0.
Proof.
  unfold normalizedHistogram. rewrite gray64_histogram.
  change (width gray64 * height gray64) with 4096.
  vm_compute. split; reflexivity.
Qed.

Section Pipeline.
Context `{MathLib}.

Lemma sqrt_0 : sqrt (JS.Fin 0) = JS.Fin 0.
Proof. reflexivity. Qed.

(** C9: on the uniform gray image of 64 by 64 pixels (128, 128, 128, 255)
    the Laplacian is 0 everywhere and [blurScore = 0]; the 49 blocks that
    are visited are uniform with noise level 0 and [noiseScore = 1]; one
    quantized color is found and [harmonyScore = 0]; the exposure has mean
    128 and deviation 0, so its [meanScore] is 1 and its [stdDevScore] is
    0. *)
Theorem flat_gray_64_scores :
  detectBlur gray64 = JS.Fin 0 /\
  detectNoise gray64 = JS.Fin 1 /\
  analyzeColorHarmony gray64 = JS.Fin 0 /\
  e_meanScore (exposureParts gray64) = JS.Fin 1 /\
  e_stdDevScore (exposureParts gray64) = JS.Fin 0.
Proof.
  destruct gray64_exposure_moments as [Hmean Hvar].
  repeat apply conj.
  - unfold detectBlur. change (width gray64) with 64. change (height gray64) with 64.
    rewrite gray64_laplacianMoments. reflexivity.
  - unfold detectNoise, noiseScoreOver.
    change (width gray64) with 64. change (height gray64) with 64.
    rewrite gray64_noiseTotals. reflexivity.
  - apply analyzeColorHarmony_uniform.
  - unfold exposureParts. cbv zeta. cbn [e_meanScore]. rewrite Hmean. reflexivity.
  - unfold exposureParts. cbv zeta. cbn [e_stdDevScore]. rewrite Hvar, sqrt_0. reflexivity.
Qed.

(** C1: the uniform gray image of 64 by 64 pixels has no edge pixel, so its
    balance is 0/0: [compositionScore], [meanScore], the ten entries of
    [scoreDistribution] and [overallScore] are NaN, whatever the faces are.
    The image of 2 by 2 pixels has a NaN [blurScore].  None of these values
    is inside its interval. *)
Theorem flat_gray_64_scores_are_NaN (F : FaceExpressionResult) :
  let T := analyzeTechnicalQuality gray64 in
  let A := analyzeAesthetics gray64 in
  analyzeComposition gray64 = JS.NaN /\
  meanScore A = JS.NaN /\
  JS.within (JS.ofZ 1) (JS.ofZ 10) (meanScore A) = false /\
  scoreDistribution A = repeat JS.NaN 10 /\
  calculateOverallScore T A F = JS.NaN /\
  JS.within (JS.ofZ 0) (JS.ofZ 1) (calculateOverallScore T A F) = false /\
  detectBlur (flatImage 2 2 128 128 128 255) = JS.NaN.
Proof.
  intros T A.
  pose proof (analyzeComposition_uniform 64 64 128 128 128 255) as Hc.
  destruct (analyzeAesthetics_NaN gray64 Hc) as [Hm Hd].
  assert (Ho : calculateOverallScore T A F = JS.NaN)
    by now apply calculateOverallScore_NaN.
  repeat apply conj.
  - exact Hc.
  - exact Hm.
  - unfold A. rewrite Hm. apply within_NaN.
  - exact Hd.
  - exact Ho.
  - rewrite Ho. apply within_NaN.
  - apply detectBlur_degenerate; simpl; lia.
Qed.

End Pipeline.

(** ** Properties of the batch *)

Lemma positions_cons (start : Z) (len : nat) :
  positions start (S len) = start :: positions (start + 1) len.
Proof.
  unfold positions. simpl. rewrite Z.add_0_r. f_equal.
  rewrite <- seq_shift, map_map. apply map_ext. intros k. lia.
Qed.

Section BatchProperties.
Context `{MathLib}.
Variable loadImage : string -> option ImageData.
Variable detectAllFaces : ImageData -> option (list Expression).

#[local] Abbreviation analyze := (analyzePhoto loadImage detectAllFaces).
#[local] Abbreviation loop := (analysisLoop loadImage detectAllFaces).
#[local] Abbreviation start := (startAnalysis loadImage detectAllFaces).
#[local] Abbreviation successes := (successes loadImage detectAllFaces).
#[local] Abbreviation reported := (reported loadImage detectAllFaces).

Lemma analyzePhoto_failure (p : Photo) :
  loadImage (imageUrl p) = None -> analyze p = None.
Proof. intros Hl. unfold analyzePhoto. now rewrite Hl. Qed.

Lemma analyzePhoto_success (p : Photo) :
  loadImage (imageUrl p) <> None ->
  exists r, analyze p = Some r /\ photoId r = id p.
Proof.
  intros Hl. unfold analyzePhoto.
  destruct (loadImage (imageUrl p)) as [img|]; [|congruence].
  eexists. split; reflexivity.
Qed.

Lemma analyzePhoto_photoId (p : Photo) (r : AnalysisResult) :
  analyze p = Some r -> photoId r = id p.
Proof.
  unfold analyzePhoto.
  destruct (loadImage (imageUrl p)); [|discriminate].
  intros [= <-]. reflexivity.
Qed.

Lemma analysisLoop_results (n i : Z) (l : list Photo) (acc : list AnalysisResult) :
  fst (loop n i l acc) = acc ++ successes l.
Proof.
  revert i acc. induction l as [|p l IH]; intros i acc; simpl.
  - now rewrite app_nil_r.
  - unfold iteration. destruct (analyze p) as [r|].
    + specialize (IH (i + 1) (acc ++ [r])).
      destruct (loop n (i + 1) l (acc ++ [r])) as [final trace].
      simpl in *. now rewrite IH, <- app_assoc.
    + specialize (IH (i + 1) acc).
      destruct (loop n (i + 1) l acc) as [final trace].
      simpl in *. exact IH.
Qed.

Lemma analysisLoop_progress (n i : Z) (l : list Photo) (acc : list AnalysisResult) :
  progressUpdates (snd (loop n i l acc)) = reported n i l.
Proof.
  revert i acc. induction l as [|p l IH]; intros i acc; simpl; [reflexivity|].
  unfold iteration. destruct (analyze p) as [r|].
  - specialize (IH (i + 1) (acc ++ [r])).
    destruct (loop n (i + 1) l (acc ++ [r])) as [final trace].
    simpl in *. now rewrite IH.
  - specialize (IH (i + 1) acc).
    destruct (loop n (i + 1) l acc) as [final trace].
    simpl in *. exact IH.
Qed.

(** The loop never calls [onAnalysisComplete]. *)
Lemma analysisLoop_no_delivery (n i : Z) (l : list Photo) (acc : list AnalysisResult) :
  flat_map (fun e => match e with OnAnalysisComplete rs => [rs] | _ => [] end)
    (snd (loop n i l acc)) = [].
Proof.
  revert i acc. induction l as [|p l IH]; intros i acc; simpl; [reflexivity|].
  unfold iteration. destruct (analyze p) as [r|].
  - specialize (IH (i + 1) (acc ++ [r])).
    destruct (loop n (i + 1) l (acc ++ [r])) as [final trace].
    simpl in *. exact IH.
  - specialize (IH (i + 1) acc).
    destruct (loop n (i + 1) l acc) as [final trace].
    simpl in *. exact IH.
Qed.

(** What a started batch delivers and reports. *)
Lemma startAnalysis_trace (photos : list Photo) :
  photos <> [] ->
  let n := Z.of_nat (length photos) in
  delivered (start true true photos) = Some (sortResults (successes photos)) /\
  progressUpdates (start true true photos) = JS.ofZ 0 :: reported n 0 photos.
Proof.
  intros Hne n. unfold startAnalysis. fold n.
  assert (Hn : (n =? 0) = false).
  { apply Z.eqb_neq. destruct photos; [congruence|]. unfold n. simpl length. lia. }
  rewrite Hn. simpl negb. simpl orb.
  pose proof (analysisLoop_results n 0 photos []) as Hr.
  pose proof (analysisLoop_progress n 0 photos []) as Hp.
  pose proof (analysisLoop_no_delivery n 0 photos []) as Hd.
  destruct (loop n 0 photos []) as [final trace]. simpl in Hr, Hp, Hd.
  subst final. split.
  - unfold delivered. simpl. rewrite flat_map_app, Hd. reflexivity.
  - unfold progressUpdates in *. simpl. rewrite flat_map_app, Hp. simpl.
    now rewrite app_nil_r.
Qed.

Lemma successes_app (l1 l2 : list Photo) :
  successes (l1 ++ l2) = successes l1 ++ successes l2.
Proof. apply flat_map_app. Qed.

Lemma successes_ids (l : list Photo) (r : AnalysisResult) :
  In r (successes l) -> In (photoId r) (map id l).
Proof.
  unfold successes. rewrite in_flat_map. intros [p [Hp Hr]].
  destruct (analyze p) as [r'|] eqn:E; simpl in Hr; [|tauto].
  destruct Hr as [<-|[]]. rewrite (analyzePhoto_photoId p r') by assumption.
  now apply in_map.
Qed.

Lemma successes_length (l : list Photo) :
  (forall q, In q l -> loadImage (imageUrl q) <> None) ->
  length (successes l) = length l.
Proof.
  induction l as [|p l IH]; intros Hall; simpl; [reflexivity|].
  destruct (analyzePhoto_success p) as [r [-> _]]; [apply Hall; now left|].
  simpl. f_equal. apply IH. intros q Hq. apply Hall. now right.
Qed.

Lemma reported_app (n i : Z) (l1 l2 : list Photo) :
  reported n i (l1 ++ l2) = reported n i l1 ++ reported n (i + Z.of_nat (length l1)) l2.
Proof.
  revert i. induction l1 as [|p l1 IH]; intros i.
  - simpl. now rewrite Z.add_0_r.
  - simpl app. simpl reported. rewrite IH.
    replace (i + 1 + Z.of_nat (length l1)) with (i + Z.of_nat (length (p :: l1)))
      by (simpl length; lia).
    destruct (analyze p); reflexivity.
Qed.

Lemma reported_all (n i : Z) (l : list Photo) :
  (forall q, In q l -> loadImage (imageUrl q) <> None) ->
  reported n i l = map (fun k => progressAt k n) (positions i (length l)).
Proof.
  revert i. induction l as [|p l IH]; intros i Hall; [reflexivity|].
  simpl length. rewrite positions_cons. simpl.
  destruct (analyzePhoto_success p) as [r [-> _]]; [apply Hall; now left|].
  f_equal. apply IH. intros q Hq. apply Hall. now right.
Qed.

(** The entries of photos that all load carry the ids of the photos, in
    order. *)
Lemma successes_photoIds (l : list Photo) :
  (forall q, In q l -> loadImage (imageUrl q) <> None) ->
  map photoId (successes l) = map id l.
Proof.
  induction l as [|p l IH]; intros Hall; simpl; [reflexivity|].
  destruct (analyzePhoto_success p) as [r [-> Hid]]; [apply Hall; now left|].
  simpl. rewrite Hid. f_equal. apply IH. intros q Hq. apply Hall. now right.
Qed.

(** C3, as the code has it: when the loader fails for exactly one photo P
    of a batch of N photos, the delivered list has N-1 entries, and their ids
    are the ids of the other photos: the id of P is among them exactly when
    another photo of the batch carries it.  [setProgress] is called N times
    in all: once with 0 when the batch starts, then once after each photo
    that succeeded, with [Math.round(((i + 1) / N) * 100)] for the photo at
    position [i]; the round of P reports nothing. *)
Theorem skip_semantics (before after : list Photo) (P : Photo) :
  let photos := before ++ P :: after in
  let n := Z.of_nat (length photos) in
  let trace := start true true photos in
  loadImage (imageUrl P) = None ->
  (forall q, In q (before ++ after) -> loadImage (imageUrl q) <> None) ->
  exists rs,
    delivered trace = Some rs /\
    length rs = (length photos - 1)%nat /\
    Permutation (map photoId rs) (map id (before ++ after)) /\
    (In (id P) (map photoId rs) <-> In (id P) (map id (before ++ after))) /\
    progressUpdates trace =
      JS.ofZ 0 ::
      map (fun i => progressAt i n) (positions 0 (length before)) ++
      map (fun i => progressAt i n) (positions (Z.of_nat (length before) + 1) (length after)) /\
    length (progressUpdates trace) = length photos /\
    progressUpdates (snd (iteration loadImage detectAllFaces n (Z.of_nat (length before)) P)) = [].
Proof.
  intros photos n trace HP Hothers.
  assert (Hne : photos <> []) by (unfold photos; now destruct before).
  destruct (startAnalysis_trace photos Hne) as [Hd Hp]. fold n in Hp.
  assert (Hs : successes photos = successes (before ++ after)).
  { unfold photos. rewrite !successes_app. simpl.
    now rewrite (analyzePhoto_failure P HP). }
  assert (Hr : reported n 0 photos =
               map (fun i => progressAt i n) (positions 0 (length before)) ++
               map (fun i => progressAt i n)
                   (positions (Z.of_nat (length before) + 1) (length after))).
  { unfold photos. rewrite reported_app. simpl reported.
    rewrite (analyzePhoto_failure P HP).
    rewrite !reported_all; [reflexivity| |];
      intros q Hq; apply Hothers, in_or_app; auto. }
  assert (Hids : Permutation (map photoId (sortResults (successes photos)))
                   (map id (before ++ after))).
  { rewrite <- (successes_photoIds (before ++ after) Hothers), <- Hs.
    apply Permutation_map, Permutation_sym, arraySort_perm. }
  exists (sortResults (successes photos)). repeat apply conj.
  - exact Hd.
  - rewrite <- (length_map photoId), (Permutation_length Hids), length_map.
    unfold photos. rewrite !length_app. simpl. lia.
  - exact Hids.
  - apply (Permutation_in _ Hids).
  - apply (Permutation_in _ (Permutation_sym Hids)).
  - fold trace in Hp. now rewrite Hp, Hr.
  - fold trace in Hp. rewrite Hp, Hr. simpl.
    rewrite length_app, !length_map. unfold positions. rewrite !length_map, !length_seq.
    unfold photos. rewrite length_app. simpl. lia.
  - unfold iteration. now rewrite (analyzePhoto_failure P HP).
Qed.

(** A photo whose image has a NaN composition score enters the results
    with a NaN overall score. *)
Lemma analyzePhoto_NaN (p : Photo) (img : ImageData) :
  loadImage (imageUrl p) = Some img ->
  analyzeComposition img = JS.NaN ->
  exists r, analyze p = Some r /\ photoId r = id p /\ overallScore r = JS.NaN.
Proof.
  intros Hl Hc. unfold analyzePhoto. rewrite Hl.
  eexists. split; [reflexivity|]. split; [reflexivity|].
  cbn [overallScore]. apply calculateOverallScore_NaN.
  now apply analyzeAesthetics_NaN.
Qed.

(** Two entries with NaN scores stay as they are: the comparator answers
    NaN, which counts as 0. *)
Lemma sortResults_two_NaN (r1 r2 : AnalysisResult) :
  overallScore r1 = JS.NaN -> overallScore r2 = JS.NaN ->
  sortResults [r1; r2] = [r1; r2].
Proof.
  intros H1 H2. unfold sortResults, arraySort. simpl. unfold goesBefore.
  rewrite H1, H2. reflexivity.
Qed.

End BatchProperties.

(** C3 as stated fails: in the batch of [photoA] and [photoB] where the
    image of [photoA] cannot be loaded, the round of [photoA] logs the error
    and reports no progress. *)
Lemma skipped_photo_reports_no_progress :
  ~ skip_semantics_as_specified (H := rationalMath)
      loaderWithoutA noFaceDetector [photoA; photoB] photoA.
Proof.
  intros [_ Hp]. specialize (Hp 0%nat photoA eq_refl).
  vm_compute in Hp. discriminate Hp.
Qed.

(** The batch of [photoA] and [photoB] when the image of [photoA] cannot be
    loaded: one entry, not of [photoA], and the progress values 0 and
    100. *)
Lemma skip_semantics_witness :
  exists rs,
    delivered (startAnalysis (H := rationalMath) loaderWithoutA noFaceDetector true true
                 [photoA; photoB]) = Some rs /\
    length rs = 1%nat /\
    ~ In (id photoA) (map photoId rs) /\
    progressUpdates (startAnalysis (H := rationalMath) loaderWithoutA noFaceDetector true true
                       [photoA; photoB]) = [JS.Fin 0; JS.Fin 100].
Proof.
  destruct (skip_semantics (H := rationalMath) loaderWithoutA noFaceDetector
              [] [photoB] photoA) as [rs (Hd & Hl & _ & Hi & Hp & _)].
  - reflexivity.
  - intros q [<-|[]]. vm_compute. discriminate.
  - exists rs. repeat apply conj; [exact Hd|exact Hl| |exact Hp].
    intros Hin. apply Hi in Hin. destruct Hin as [Hin|[]]. discriminate Hin.
Defined.

(** The failure of a photo does not keep its id out of the results when
    another photo carries the same id. *)
Example duplicate_id_is_delivered :
  exists rs,
    delivered (startAnalysis (H := rationalMath) loaderWithoutA noFaceDetector true true
                 [photoA; photoA']) = Some rs /\
    In (id photoA) (map photoId rs).
Proof. eexists. split; [vm_compute; reflexivity|]. left. reflexivity. Qed.

(** C4: a batch of two photos whose images are uniform has two entries with
    NaN overall scores; the comparator of the sort answers NaN for them and
    the delivered list is not in descending order: [NaN >= NaN] is false. *)
Theorem delivered_order_broken_by_NaN `{MathLib}
    (detectAllFaces : ImageData -> option (list Expression)) :
  exists r1 r2,
    delivered (startAnalysis loaderGray detectAllFaces true true [photoA; photoB])
    = Some [r1; r2] /\
    photoId r1 = id photoA /\ photoId r2 = id photoB /\
    overallScore r1 = JS.NaN /\ overallScore r2 = JS.NaN /\
    JS.ge (overallScore r1) (overallScore r2) = false.
Proof.
  destruct (analyzePhoto_NaN loaderGray detectAllFaces photoA gray4 eq_refl (analyzeComposition_uniform 4 4 128 128 128 255))
    as [r1 (E1 & I1 & S1)].
  destruct (analyzePhoto_NaN loaderGray detectAllFaces photoB gray4 eq_refl (analyzeComposition_uniform 4 4 128 128 128 255))
    as [r2 (E2 & I2 & S2)].
  exists r1, r2.
  destruct (startAnalysis_trace loaderGray detectAllFaces [photoA; photoB]) as [Hd _];
    [discriminate|].
  rewrite Hd. unfold successes. cbn [flat_map]. rewrite E1, E2. cbn [app].
  rewrite sortResults_two_NaN by assumption.
  rewrite S1, S2. repeat split; assumption.
Qed.
